(** * fastchat/serve/cli.py: the conversation I/O layer

    A shallow embedding of the three [ChatIO] implementations of
    [fastchat/serve/cli.py] ([SimpleChatIO], [RichChatIO], [FileInputChatIO])
    and of the Python string built-ins they call, followed by the properties
    of the word-by-word printer, of the markdown line transformation and of
    the prompting functions.

    Conventions.  A Python [str] is a [string]; its characters are read as the
    code points U+0000..U+00FF.  A generator consumed by a [for] loop is the
    finite list of the values it yields.  The console, the keyboard, the
    socket and the file system are fields of an explicit [world] that every
    effectful function takes and returns.  A raised exception is the [Raise]
    alternative of [result]. *)

From Stdlib Require Import String Ascii List Arith Bool Lia.
From stdpp Require Import base option list sorting gmap strings.
Import ListNotations.

#[local] Open Scope string_scope.
#[local] Open Scope nat_scope.
#[local] Open Scope list_scope.

(** ** Python built-ins on [str] *)

Module Py.

Definition SP : ascii := " "%char.
Definition LF : ascii := "010"%char.
Definition CR : ascii := "013"%char.

(** [str.isspace] on one character: the ASCII white space
    (TAB, LF, VT, FF, CR, FS, GS, RS, US, SPACE) and, above it, NEL and
    NBSP. *)
Definition isspace (c : ascii) : bool :=
  let n := nat_of_ascii c in
  ((9 <=? n)%nat && (n <=? 13)%nat) || ((28 <=? n)%nat && (n <=? 31)%nat)
  || (n =? 32)%nat || (n =? 133)%nat || (n =? 160)%nat.

(** The line boundaries of [str.splitlines]: LF, VT, FF, CR, FS, GS, RS
    and NEL (US and SPACE are white space but do not end a line). *)
Definition islinebreak (c : ascii) : bool :=
  let n := nat_of_ascii c in
  ((10 <=? n)%nat && (n <=? 13)%nat) || ((28 <=? n)%nat && (n <=? 30)%nat)
  || (n =? 133)%nat.

(** [s.lstrip()] *)
Fixpoint lstrip (s : string) : string :=
  match s with
  | EmptyString => EmptyString
  | String c s' => if isspace c then lstrip s' else s
  end.

(** [s.rstrip()]: a character is dropped when it is white space and
    nothing survives to its right. *)
Fixpoint rstrip (s : string) : string :=
  match s with
  | EmptyString => EmptyString
  | String c s' =>
      match rstrip s' with
      | EmptyString => if isspace c then EmptyString else String c EmptyString
      | r => String c r
      end
  end.

(** [s.strip()] *)
Definition strip (s : string) : string := rstrip (lstrip s).

(** [s.split(sep)] for a separator of one character: every occurrence of
    [sep] ends a field, so consecutive separators give empty fields and the
    result is never the empty list. *)
Fixpoint split (sep : ascii) (s : string) : list string :=
  match s with
  | EmptyString => [EmptyString]
  | String c s' =>
      if Ascii.eqb c sep then EmptyString :: split sep s'
      else match split sep s' with
           | [] => [String c EmptyString]
           | t :: ts => String c t :: ts
           end
  end.

(** [sep.join(l)] *)
Fixpoint join (sep : string) (l : list string) : string :=
  match l with
  | [] => EmptyString
  | [x] => x
  | x :: l' => x +:+ sep +:+ join sep l'
  end.

(** [s.startswith(p)] *)
Definition startswith (s p : string) : bool := String.prefix p s.

(** [s.splitlines()]: the lines of [s] without their line boundaries;
    CR LF counts as one boundary; a boundary at the very end opens no
    further line. *)
Fixpoint splitlines (s : string) : list string :=
  match s with
  | EmptyString => []
  | String c s' =>
      if islinebreak c then
        EmptyString ::
          match s' with
          | String d s'' =>
              if Ascii.eqb c CR && Ascii.eqb d LF then splitlines s''
              else splitlines s'
          | EmptyString => []
          end
      else match splitlines s' with
           | [] => [String c EmptyString]
           | l :: ls => String c l :: ls
           end
  end.

(** [l[a:b]] for indices [0 <= a], [0 <= b] *)
Definition slice {A} (a b : nat) (l : list A) : list A := drop a (take b l).

End Py.

Definition nl : string := String Py.LF EmptyString.

(** ** Exceptions, results and the world *)

Inductive exn : Type :=
| UnboundLocalError
| AttributeError
| EOFError
| FileNotFoundError
| ConnectionClosed.

Inductive result (A : Type) : Type :=
| Ok (a : A)
| Raise (e : exn).
Arguments Ok {A} a.
Arguments Raise {A} e.

(** What the program can see and change outside its own variables. *)
Record world : Type := World {
  stdout : list string;        (* the writes made to the console, oldest first *)
  stdin : list string;         (* the lines still to be read from the keyboard *)
  live : list string;          (* the markdown sources handed to the live display *)
  ws_sent : list string;       (* the frames sent on the socket *)
  ws_inbox : list string;      (* the frames of the peer that no recv has returned yet *)
  files : gmap string string   (* the text files, by path *)
}.

Definition write (s : string) (w : world) : world :=
  World (stdout w ++ [s]) (stdin w) (live w) (ws_sent w) (ws_inbox w) (files w).

(** [print(s, end=e, flush=True)] *)
Definition print_ (s e : string) (w : world) : world := write (s +:+ e) w.

(** [input(prompt)]: the prompt goes to the console without a line end, then
    one line is read; [EOFError] when the keyboard has nothing more. *)
Definition input (prompt : string) (w : world) : result string * world :=
  let w := write prompt w in
  match stdin w with
  | [] => (Raise EOFError, w)
  | l :: rest =>
      (Ok l, World (stdout w) rest (live w) (ws_sent w) (ws_inbox w) (files w))
  end.

(** [live.update(Markdown(src))] *)
Definition live_update (src : string) (w : world) : world :=
  World (stdout w) (stdin w) (live w ++ [src]) (ws_sent w) (ws_inbox w) (files w).

(** [await websocket.recv()] *)
Definition recv (w : world) : result string * world :=
  match ws_inbox w with
  | [] => (Raise ConnectionClosed, w)
  | m :: rest =>
      (Ok m, World (stdout w) (stdin w) (live w) (ws_sent w) rest (files w))
  end.

(** [open(path, 'r')] followed by [f.read()] *)
Definition read_file (path : string) (w : world) : result string :=
  match files w !! path with
  | Some contents => Ok contents
  | None => Raise FileNotFoundError
  end.

(** One element of the generation stream: the dict of which the printers
    read the key ["text"]. *)
Record outputs : Type := Outputs { text : string }.

(** The values the variable [line] of [SimpleChatIO.prompt_for_input] can
    hold: a [str], or the coroutine object that a call of an [async def]
    function returns (kept with the argument of the call). *)
Inductive pyobj : Type :=
| PyStr (s : string)
| PyCoroutine (prompt : option string).

(** [o.strip()]: a coroutine object has no attribute [strip]. *)
Definition obj_strip (o : pyobj) : result string :=
  match o with
  | PyStr s => Ok (Py.strip s)
  | PyCoroutine _ => Raise AttributeError
  end.

(** ** class SimpleChatIO *)

Module SimpleChatIO.

(** The object: [self._multiline].  The socket [self.websocket] is the
    [ws_sent] and [ws_inbox] part of the world. *)
Record t : Type := { multiline : bool }.

(** Modelled from the spec: [send_message_to_websocket] is called by
    [receive_input_from_websocket] and defined nowhere in [cli.py]; the
    prompt label is sent over the Transport Session as one outbound frame. *)
Definition send_message_to_websocket (message : string) (w : world) : world :=
  World (stdout w) (stdin w) (live w) (ws_sent w ++ [message]) (ws_inbox w) (files w).

(** The body of [receive_input_from_websocket], which runs only when the
    coroutine is awaited. *)
Definition receive_input_from_websocket_body
    (prompt : option string) (w : world) : result string * world :=
  let w :=
    match prompt with
    | Some (String c p) => send_message_to_websocket (String c p) w
    | Some EmptyString | None => w
    end in
  match recv w with
  | (Ok user_input, w) => (Ok user_input, print_ user_input nl w)
  | (Raise e, w) => (Raise e, w)
  end.

(** [self.receive_input_from_websocket(prompt)]: the function is declared
    [async def], so the call runs no statement of the body and returns a
    coroutine object. *)
Definition receive_input_from_websocket
    (self : t) (prompt : option string) (w : world) : result pyobj * world :=
  (Ok (PyCoroutine prompt), w).

(** The [while True] loop of the multi-line branch; [None] when [fuel]
    iterations were not enough. *)
Fixpoint prompt_loop (fuel : nat) (self : t) (line : pyobj)
    (prompt_data : list string) (w : world) : option (result string * world) :=
  match fuel with
  | O => None
  | S fuel =>
      match obj_strip line with
      | Raise e => Some (Raise e, w)
      | Ok stripped =>
          let prompt_data := prompt_data ++ [stripped] in
          match receive_input_from_websocket self None w with
          | (Ok line, w) => prompt_loop fuel self line prompt_data w
          | (Raise EOFError, w) => Some (Ok (Py.join nl prompt_data), w)
          | (Raise e, w) => Some (Raise e, w)
          end
      end
  end.

Definition prompt_for_input (fuel : nat) (self : t) (role : string) (w : world)
    : option (result string * world) :=
  if negb (multiline self) then Some (input (role +:+ ": ") w)
  else
    let prompt_data := [] in
    match receive_input_from_websocket self
            (Some (role +:+ " [ctrl-d/z on empty line to end]: ")) w with
    | (Ok line, w) => prompt_loop fuel self line prompt_data w
    | (Raise e, w) => Some (Raise e, w)
    end.

Definition prompt_for_output (self : t) (role : string) (w : world) : world :=
  print_ (role +:+ ": ") EmptyString w.

(** The variables of [stream_output]; [output_text] is unbound until the
    loop body has run once. *)
Record locals : Type := Locals { pre : nat; output_text : option (list string) }.

(** The body of [for outputs in output_stream].  [now] is a natural number:
    [split] never returns the empty list, so [len(output_text) - 1] is
    never negative. *)
Definition loop_body (st : locals * world) (o : outputs) : locals * world :=
  let '(vars, w) := st in
  let output_text := Py.split Py.SP (Py.strip (text o)) in
  let now := length output_text - 1 in
  if (pre vars <? now)%nat then
    (Locals now (Some output_text),
     print_ (Py.join " " (Py.slice (pre vars) now output_text)) " " w)
  else (Locals (pre vars) (Some output_text), w).

Definition loop (output_stream : list outputs) (w : world) : locals * world :=
  foldl loop_body (Locals 0 None, w) output_stream.

Definition stream_output (self : t) (output_stream : list outputs) (w : world)
    : result string * world :=
  let '(vars, w) := loop output_stream w in
  match output_text vars with
  | None => (Raise UnboundLocalError, w)
  | Some output_text =>
      (Ok (Py.join " " output_text),
       print_ (Py.join " " (drop (pre vars) output_text)) nl w)
  end.

End SimpleChatIO.

(** ** class RichChatIO *)

Module RichChatIO.

(** The inner loop [for line in text.splitlines()], started from
    [lines = []]. *)
Definition lines_body (lines : list string) (line : string) : list string :=
  let lines := lines ++ [line] in
  if Py.startswith line "```" then lines ++ [nl] else lines ++ ["  " +:+ nl].

(** The argument of [Markdown(...)] for one snapshot text. *)
Definition markdown_source (text : string) : string :=
  let lines := foldl lines_body [] (Py.splitlines text) in
  Py.join EmptyString lines.

(** The body of [for outputs in output_stream]; a stream element is [None]
    when it is falsy ([if not outputs: continue]).  The state is the
    variable [text], unbound until a truthy element was seen. *)
Definition loop_body (st : option string * world) (o : option outputs)
    : option string * world :=
  match o with
  | None => st
  | Some o =>
      let text := text o in
      (Some text, live_update (markdown_source text) (snd st))
  end.

Definition stream_output (output_stream : list (option outputs)) (w : world)
    : result string * world :=
  let '(text, w) := foldl loop_body (None, w) output_stream in
  let w := print_ EmptyString nl w in
  match text with
  | None => (Raise UnboundLocalError, w)
  | Some text => (Ok text, w)
  end.

End RichChatIO.

(** ** class FileInputChatIO *)

Module FileInputChatIO.

Record t : Type := { input_file : string }.

Definition prompt_for_input (self : t) (role : string) (w : world)
    : result string * world :=
  match read_file (input_file self) w with
  | Raise e => (Raise e, w)
  | Ok contents =>
      (Ok contents, print_ ("[!OP:" +:+ role +:+ "]: " +:+ contents) nl w)
  end.

Definition prompt_for_output (self : t) (role : string) (w : world) : world :=
  print_ ("[!OP:" +:+ role +:+ "]: ") EmptyString w.

Record locals : Type := Locals { pre : nat; output_text : option (list string) }.

Definition loop_body (st : locals * world) (o : outputs) : locals * world :=
  let '(vars, w) := st in
  let output_text := Py.split Py.SP (Py.strip (text o)) in
  let now := length output_text - 1 in
  if (pre vars <? now)%nat then
    (Locals now (Some output_text),
     print_ (Py.join " " (Py.slice (pre vars) now output_text)) " " w)
  else (Locals (pre vars) (Some output_text), w).

Definition loop (output_stream : list outputs) (w : world) : locals * world :=
  foldl loop_body (Locals 0 None, w) output_stream.

Definition stream_output (self : t) (output_stream : list outputs) (w : world)
    : result string * world :=
  let '(vars, w) := loop output_stream w in
  match output_text vars with
  | None => (Raise UnboundLocalError, w)
  | Some output_text =>
      (Ok (Py.join " " output_text),
       print_ (Py.join " " (drop (pre vars) output_text)) nl w)
  end.

End FileInputChatIO.

(** ** main *)

Module Main.

(** The attributes of [args] that [main] itself reads; the others are only
    handed on to [chat_loop]. *)
Record args : Type := Args {
  gpus : option string;
  num_gpus : Z;
  style : string;
  multiline : bool;
  mouse : bool
}.

(** The object bound to [chatio]. *)
Inductive chatio : Type :=
| Simple (io : SimpleChatIO.t)
| Rich (multiline mouse : bool)
| FileInput (io : FileInputChatIO.t).

(** An exception that leaves [websockets.connect] or [chat_loop]. *)
Inductive raised : Type :=
| KeyboardInterrupt
| OtherException.

(** How a call of [main] ends. *)
Inductive ending : Type :=
| Finished
| ValueError
| Uncaught (r : raised).

Section main.

(** What [main] calls and [cli.py] does not define is a parameter of [main],
    and each of these calls may raise: [os.path.abspath] in the current
    directory gives a path or raises; [websockets.connect], the constructors
    that [RichChatIO.__init__] calls ([PromptSession], [WordCompleter],
    [Console]) and [fastchat.serve.inference.chat_loop] change the world and
    either return ([None]) or raise. *)
Variable abspath : string → raised + string.
Variable connect : string → world → option raised * world.
Variable rich_init : world → option raised * world.
Variable chat_loop :
  chatio → gmap string string → world → option raised * world.

(** The [if args.gpus:] block: [None] when it raises [ValueError], otherwise
    [os.environ] as the block leaves it. *)
Definition visible_devices (a : args) (environ : gmap string string)
    : option (gmap string string) :=
  match gpus a with
  | Some (String c g) =>
      let gpus := String c g in
      if (Z.of_nat (length (Py.split "," gpus)) <? num_gpus a)%Z then None
      else Some (<["XPU_VISIBLE_DEVICES" := gpus]>
                   (<["CUDA_VISIBLE_DEVICES" := gpus]> environ))
  | Some EmptyString | None => Some environ
  end.

(** The [if args.style == ...] chain, all of which runs before the [try]:
    the [chatio] object, or how [main] ends without one. *)
Definition select_chatio (a : args) (w : world) : (ending + chatio) * world :=
  if String.eqb (style a) "simple" then
    match connect "wss://35.209.170.184:8080/ws" w with
    | (None, w) => (inr (Simple {| SimpleChatIO.multiline := multiline a |}), w)
    | (Some r, w) => (inl (Uncaught r), w)
    end
  else if String.eqb (style a) "rich" then
    match rich_init w with
    | (None, w) => (inr (Rich (multiline a) (mouse a)), w)
    | (Some r, w) => (inl (Uncaught r), w)
    end
  else if String.eqb (style a) "programmatic" then
    let input_file_name := "input_prompt.txt" in
    let inputs_directory := "inputs" in
    let root_input_file := inputs_directory +:+ "/" +:+ input_file_name in
    match abspath root_input_file with
    | inr root_input_file_path =>
        (inr (FileInput {| FileInputChatIO.input_file := root_input_file_path |}), w)
    | inl r => (inl (Uncaught r), w)
    end
  else (inl ValueError, w).

Definition main (a : args) (environ : gmap string string) (w : world)
    : ending * gmap string string * world :=
  match visible_devices a environ with
  | None => (ValueError, environ, w)
  | Some environ =>
      match select_chatio a w with
      | (inl e, w) => (e, environ, w)
      | (inr chatio, w) =>
          match chat_loop chatio environ w with
          | (None, w) => (Finished, environ, w)
          | (Some KeyboardInterrupt, w) => (Finished, environ, print_ "exit..." nl w)
          | (Some r, w) => (Uncaught r, environ, w)
          end
      end
  end.

End main.

End Main.

(** ** Vocabulary of the properties *)

(** An untouched world, for the examples. *)
Definition world0 : world := World [] [] [] [] [] ∅.

(** The world after the further console writes [ws]. *)
Definition writes (ws : list string) (w : world) : world :=
  World (stdout w ++ ws) (stdin w) (live w) (ws_sent w) (ws_inbox w) (files w).

(** The token list the plain printers compute from a snapshot. *)
Definition tokens (o : outputs) : list string :=
  Py.split Py.SP (Py.strip (text o)).

(** The tokens of a snapshot that are complete: all but the last one. *)
Definition committed (o : outputs) : list string :=
  take (length (tokens o) - 1) (tokens o).

(** The strictest reading of the prefix-extension invariant: the whole token
    list of each snapshot, its last token included, is a prefix of the token
    list of the next.  Only streams of whole words satisfy it: a last word
    that is still growing breaks it.  No property below assumes it; it
    implies [cumulative], which they assume. *)
Definition extends (a b : outputs) : Prop := tokens a `prefix_of` tokens b.
Definition prefix_extension (s : list outputs) : Prop := Sorted extends s.

(** A stream is cumulative when the complete tokens of each snapshot stay in
    place in the next one, while the last token may still grow.  Both
    [prefix_extension] and a text that only grows at its end give it
    ([prefix_extension_cumulative], [growing_text_cumulative]). *)
Definition grows (a b : outputs) : Prop := committed a `prefix_of` committed b.
Definition cumulative (s : list outputs) : Prop := Sorted grows s.

(** Two streams for the examples: whole words, and a last word that is still
    being generated. *)
Definition hello_stream : list outputs :=
  [Outputs "Hello"; Outputs "Hello there"; Outputs "Hello there friend"].
Definition fox_stream : list outputs :=
  [Outputs "The"; Outputs "The quick br"; Outputs " The quick brown fox "].

(** A stream whose last word is cut at every snapshot but the last. *)
Definition growing_stream : list outputs :=
  [Outputs "Hel"; Outputs "Hello wor"; Outputs "Hello world again"].

(** A one-snapshot stream whose text has white space at both ends and, inside,
    two spaces in a row and a line end. *)
Definition spaced_text : string := "  a  b" +:+ nl +:+ "c " +:+ nl.
Definition spaced_stream : list outputs := [Outputs spaced_text].

(** A session whose peer has sent two frames and then closed. *)
Definition bridge_session : world :=
  World [] [] [] [] ["line one"; "line two"] ∅.

(** A keyboard with one typed line, next to a socket with one frame. *)
Definition desk : world := World [] ["typed here"] [] [] ["from the peer"] ∅.

(** A file system that holds the input file of the programmatic style. *)
Definition prompt_file : FileInputChatIO.t :=
  {| FileInputChatIO.input_file := "inputs/input_prompt.txt" |}.
Definition disk : world :=
  World [] [] [] [] [] {[ "inputs/input_prompt.txt" := "Summarise the report." ]}.

(** A fenced block with one code line, and the same text with the code line
    left as it is, as a renderer that spared the inside of a fence would give
    it. *)
Definition fenced_text : string :=
  "```python" +:+ nl +:+ "print(1)" +:+ nl +:+ "```".
Definition fenced_unsuffixed : string :=
  "```python" +:+ nl +:+ "print(1)" +:+ nl +:+ "```" +:+ nl.

(** Strings without a line boundary. *)
Fixpoint one_line (s : string) : bool :=
  match s with
  | EmptyString => true
  | String c s' => negb (Py.islinebreak c) && one_line s'
  end.

(** The world after the further redraws [srcs] of the live display. *)
Definition shows (srcs : list string) (w : world) : world :=
  World (stdout w) (stdin w) (live w ++ srcs) (ws_sent w) (ws_inbox w) (files w).

(** What the console shows after the writes [ws]. *)
Definition shown (ws : list string) : string := foldr String.append EmptyString ws.

(** The text of [b] is the text of [a] with more characters at its end. *)
Definition text_grows (a b : outputs) : Prop := ∃ more, text b = text a +:+ more.

(** Strings made of white space only. *)
Fixpoint all_space (s : string) : bool :=
  match s with
  | EmptyString => true
  | String c s' => Py.isspace c && all_space s'
  end.


(** Non-empty strings whose last character is not a line boundary. *)
Fixpoint ends_open (s : string) : bool :=
  match s with
  | EmptyString => false
  | String c EmptyString => negb (Py.islinebreak c)
  | String _ s' => ends_open s'
  end.

(** A stream with a blank snapshot in it, and one whose last snapshot is
    shorter than an earlier one. *)
Definition blank_stream : list outputs := [Outputs "  "; Outputs nl].
Definition shrinking_stream : list outputs := [Outputs "a b c d"; Outputs "a b"].

Definition odd_style : Main.args := Main.Args (Some "0,1") 2 "fancy" false false.

(** * Properties *)

(** ** The built-ins on small inputs *)

Example strip_ex : Py.strip ("  a  b " +:+ nl) = "a  b".
Proof. reflexivity. Qed.
Example split_ex : Py.split " " "a  b" = ["a"; EmptyString; "b"].
Proof. reflexivity. Qed.
Example split_empty_ex : Py.split " " EmptyString = [EmptyString].
Proof. reflexivity. Qed.
Example join_ex : Py.join " " ["a"; "b"; "c"] = "a b c".
Proof. reflexivity. Qed.
Example splitlines_ex :
  Py.splitlines ("a" +:+ nl +:+ nl +:+ "b" +:+ String Py.CR nl +:+ "c" +:+ nl)
  = ["a"; EmptyString; "b"; "c"].
Proof. reflexivity. Qed.
Example slice_ex : Py.slice 1 3 [10; 20; 30; 40] = [20; 30].
Proof. reflexivity. Qed.

(** ** Appending strings *)

Lemma sapp_nil_l s : EmptyString +:+ s = s.
Proof. reflexivity. Qed.

Lemma sapp_cons c s t : String c s +:+ t = String c (s +:+ t).
Proof. reflexivity. Qed.

Lemma sapp_nil_r s : s +:+ EmptyString = s.
Proof. induction s as [|c s IH]; [done|]. by rewrite sapp_cons, IH. Qed.

Lemma sapp_assoc s t u : (s +:+ t) +:+ u = s +:+ t +:+ u.
Proof. induction s as [|c s IH]; [done|]. by rewrite !sapp_cons, IH. Qed.

(** Awaited, [receive_input_from_websocket] would send the label and return
    the next frame of the peer. *)
Example receive_body_ex :
  SimpleChatIO.receive_input_from_websocket_body (Some "USER: ") bridge_session
  = (Ok "line one",
     World ["line one" +:+ nl] [] [] ["USER: "] ["line two"] ∅).
Proof. reflexivity. Qed.

(** ** [split] and [join] *)

Lemma split_not_nil sep s : Py.split sep s ≠ [].
Proof.
  destruct s as [|c s]; simpl; [done|].
  destruct (Ascii.eqb c sep); [done|]. by destruct (Py.split sep s).
Qed.

Lemma length_split_pos sep s : 1 ≤ length (Py.split sep s).
Proof.
  pose proof (split_not_nil sep s). destruct (Py.split sep s); simpl; [done|lia].
Qed.

Lemma join_cons sep x l :
  l ≠ [] → Py.join sep (x :: l) = x +:+ sep +:+ Py.join sep l.
Proof. by destruct l. Qed.

(** Splitting on a character and joining with it again gives the string
    back. *)
Lemma join_split sep s : Py.join (String sep EmptyString) (Py.split sep s) = s.
Proof.
  induction s as [|c s IH]; simpl; [done|].
  destruct (Ascii.eqb_spec c sep) as [->|Hne].
  - rewrite join_cons; [|apply split_not_nil].
    by rewrite sapp_nil_l, sapp_cons, sapp_nil_l, IH.
  - pose proof (split_not_nil sep s) as Hnil.
    destruct (Py.split sep s) as [|t ts]; [done|].
    rewrite <- IH. by destruct ts.
Qed.

Lemma join_app sep l1 l2 :
  l1 ≠ [] → l2 ≠ [] →
  Py.join sep (l1 ++ l2) = Py.join sep l1 +:+ sep +:+ Py.join sep l2.
Proof.
  intros H1 H2. induction l1 as [|x l1 IH]; [done|].
  destruct l1 as [|y l1].
  - simpl. by destruct l2.
  - change ((x :: y :: l1) ++ l2) with (x :: (y :: l1) ++ l2).
    rewrite (join_cons sep x ((y :: l1) ++ l2)); [|done].
    rewrite (join_cons sep x (y :: l1)); [|done].
    rewrite IH; [|done]. by rewrite !sapp_assoc.
Qed.

(** Joining groups that were joined one by one is joining all their
    elements. *)
Lemma join_concat sep (groups : list (list string)) :
  Forall (λ g, g ≠ []) groups →
  Py.join sep (Py.join sep <$> groups) = Py.join sep (concat groups).
Proof.
  induction 1 as [|g groups Hg Hall IH]; [done|].
  destruct groups as [|g' groups].
  - simpl. by rewrite app_nil_r.
  - rewrite fmap_cons, join_cons; [|done]. rewrite IH.
    change (concat (g :: g' :: groups)) with (g ++ concat (g' :: groups)).
    rewrite join_app; [done|done|].
    inversion Hall as [|? ? Hg' _]; subst. simpl. by destruct g'.
Qed.

(** ** [strip] *)

Lemma lstrip_split s : ∃ l, s = l +:+ Py.lstrip s ∧ all_space l = true.
Proof.
  induction s as [|c s (l & Hs & Hl)]; [by exists EmptyString|].
  simpl. destruct (Py.isspace c) eqn:Hc.
  - exists (String c l). rewrite sapp_cons, <- Hs. simpl. by rewrite Hc, Hl.
  - by exists EmptyString.
Qed.

Lemma lstrip_head s c t : Py.lstrip s = String c t → Py.isspace c = false.
Proof.
  induction s as [|d s IH]; simpl; [done|].
  destruct (Py.isspace d) eqn:Hd; [done|]. by intros [= -> _].
Qed.

Lemma rstrip_split s : ∃ r, s = Py.rstrip s +:+ r ∧ all_space r = true.
Proof.
  induction s as [|c s (r & Hs & Hr)]; [by exists EmptyString|].
  simpl. destruct (Py.rstrip s) as [|d u] eqn:Hu.
  - rewrite sapp_nil_l in Hs. subst r. destruct (Py.isspace c) eqn:Hc.
    + exists (String c s). simpl. by rewrite Hc, Hr.
    + by exists s.
  - exists r. by rewrite sapp_cons, <- Hs.
Qed.

Lemma rstrip_head c s : Py.isspace c = false → ∃ t, Py.rstrip (String c s) = String c t.
Proof. intros Hc. simpl. rewrite Hc. destruct (Py.rstrip s); eauto. Qed.

Lemma rstrip_last s t c :
  Py.rstrip s = t +:+ String c EmptyString → Py.isspace c = false.
Proof.
  revert t. induction s as [|d s IH]; intros t; simpl.
  - by destruct t.
  - destruct (Py.rstrip s) as [|e u] eqn:Hu.
    + destruct (Py.isspace d) eqn:Hd; [by destruct t|].
      destruct t as [|d' t]; [by intros [= ->]|].
      rewrite sapp_cons. intros [= _ Ht]. by destruct t.
    + destruct t as [|d' t]; [done|].
      rewrite sapp_cons. intros [= _ Ht]. by apply (IH t).
Qed.

(** [strip] removes white space at both ends and nothing else. *)
Lemma strip_spec s :
  ∃ l r,
    s = l +:+ Py.strip s +:+ r ∧ all_space l = true ∧ all_space r = true
    ∧ (∀ c t, Py.strip s = String c t → Py.isspace c = false)
    ∧ (∀ t c, Py.strip s = t +:+ String c EmptyString → Py.isspace c = false).
Proof.
  destruct (lstrip_split s) as (l & Hs & Hl).
  destruct (rstrip_split (Py.lstrip s)) as (r & Hm & Hr).
  exists l, r. unfold Py.strip. split_and!; [|done|done| |].
  - by rewrite <- Hm.
  - intros c t Hc. destruct (Py.lstrip s) as [|d u] eqn:Hu; [done|].
    pose proof (lstrip_head _ _ _ Hu) as Hd.
    destruct (rstrip_head d u Hd) as [t' Ht']. congruence.
  - intros t c. apply rstrip_last.
Qed.

(** ** Console writes *)

Lemma write_writes x w : write x w = writes [x] w.
Proof. reflexivity. Qed.

Lemma writes_nil w : writes [] w = w.
Proof. destruct w. unfold writes. simpl. by rewrite app_nil_r. Qed.

Lemma writes_writes a b w : writes b (writes a w) = writes (a ++ b) w.
Proof. unfold writes. simpl. by rewrite app_assoc. Qed.

Lemma stdout_writes ws w : stdout (writes ws w) = stdout w ++ ws.
Proof. reflexivity. Qed.

Lemma shown_cons x ws : shown (x :: ws) = x +:+ shown ws.
Proof. reflexivity. Qed.

Lemma shown_app a b : shown (a ++ b) = shown a +:+ shown b.
Proof.
  induction a as [|x a IH]; [done|]. simpl. by rewrite IH, sapp_assoc.
Qed.

(** What the console shows after space-terminated chunks and a closing chunk
    is the chunks joined with single spaces, and the line end. *)
Lemma shown_chunks (chunks : list string) closing :
  shown (((λ c, c +:+ " ") <$> chunks) ++ [closing +:+ nl])
  = Py.join " " (chunks ++ [closing]) +:+ nl.
Proof.
  induction chunks as [|c chunks IH].
  - simpl. by rewrite sapp_nil_r.
  - change (shown ((c +:+ " ") :: ((λ c, c +:+ " ") <$> chunks) ++ [closing +:+ nl])
            = Py.join " " (c :: (chunks ++ [closing])) +:+ nl).
    rewrite join_cons; [|by destruct chunks]. simpl. rewrite IH.
    by rewrite !sapp_assoc.
Qed.

(** ** The loop of [stream_output] *)

Lemma length_tokens_pos o : 1 ≤ length (tokens o).
Proof. apply length_split_pos. Qed.

Lemma length_committed o : length (committed o) = length (tokens o) - 1.
Proof. unfold committed. rewrite length_take. lia. Qed.

Lemma committed_prefix o : committed o `prefix_of` tokens o.
Proof. apply prefix_take. Qed.

Lemma join_tokens o : Py.join " " (tokens o) = Py.strip (text o).
Proof. apply (join_split Py.SP). Qed.

Lemma simple_loop_snoc s x w :
  SimpleChatIO.loop (s ++ [x]) w = SimpleChatIO.loop_body (SimpleChatIO.loop s w) x.
Proof. unfold SimpleChatIO.loop. by rewrite foldl_app. Qed.

(** After the body has run, [output_text] is the token list of the snapshot
    it ran on. *)
Lemma simple_loop_body_text st x :
  SimpleChatIO.output_text (SimpleChatIO.loop_body st x).1 = Some (tokens x).
Proof.
  destruct st as [vars w]. unfold SimpleChatIO.loop_body.
  by destruct (_ <? _).
Qed.

Lemma simple_loop_text s o w :
  last s = Some o → SimpleChatIO.output_text (SimpleChatIO.loop s w).1 = Some (tokens o).
Proof.
  intros (s' & ->)%last_Some. rewrite simple_loop_snoc. apply simple_loop_body_text.
Qed.

(** One run of the body: it writes at most one chunk, the tokens
    [output_text[pre:now]], and only when that slice is not empty. *)
Lemma simple_loop_body_writes vars w x :
  ∃ chunks : list (list string),
    SimpleChatIO.loop_body (vars, w) x
    = (SimpleChatIO.Locals (SimpleChatIO.pre vars `max` (length (tokens x) - 1))
         (Some (tokens x)),
       writes ((λ g, Py.join " " g +:+ " ") <$> chunks) w)
    ∧ Forall (λ g, g ≠ []) chunks
    ∧ concat chunks
      = Py.slice (SimpleChatIO.pre vars) (length (tokens x) - 1) (tokens x).
Proof.
  unfold SimpleChatIO.loop_body. fold (tokens x).
  set (now := length (tokens x) - 1). set (p := SimpleChatIO.pre vars).
  assert (length (Py.slice p now (tokens x)) = now - p) as Hlen.
  { unfold Py.slice. rewrite length_drop, length_take.
    pose proof (length_tokens_pos x). lia. }
  destruct (Nat.ltb_spec p now) as [Hlt|Hge].
  - exists [Py.slice p now (tokens x)]. split_and!.
    + by rewrite Nat.max_r by lia.
    + constructor; [|done]. intros Hnil. rewrite Hnil in Hlen. simpl in Hlen. lia.
    + simpl. by rewrite app_nil_r.
  - exists []. split_and!; [|done|].
    + rewrite Nat.max_l by lia. by rewrite writes_nil; destruct vars.
    + simpl. symmetry. apply length_zero_iff_nil. lia.
Qed.

(** ** Streams ordered by a relation *)

Section sorted_streams.
Context {A : Type} (R : relation A).

Lemma Sorted_snoc_inv s x :
  Sorted R (s ++ [x]) → Sorted R s ∧ ∀ y, last s = Some y → R y x.
Proof.
  induction s as [|a s IH]; simpl; [by split|].
  intros [Hs Hhd]%Sorted_inv. destruct (IH Hs) as [Hs' Hlast].
  destruct s as [|b s].
  - split; [by repeat constructor|].
    intros y [= <-]. by apply HdRel_inv in Hhd.
  - split; [|done].
    constructor; [done|]. constructor. by apply HdRel_inv in Hhd.
Qed.

Lemma Sorted_app_inv_r s1 s2 : Sorted R (s1 ++ s2) → Sorted R s2.
Proof.
  induction s1 as [|a s1 IH]; simpl; [done|].
  intros [Hs _]%Sorted_inv. by apply IH.
Qed.

Lemma Sorted_later `{!Transitive R} s1 x s2 y :
  Sorted R (s1 ++ x :: s2) → y ∈ s2 → R x y.
Proof.
  intros Hs%Sorted_app_inv_r Hy.
  apply Sorted_StronglySorted in Hs; [|apply _].
  apply StronglySorted_inv in Hs as [_ Hall].
  by eapply Forall_forall in Hall.
Qed.
End sorted_streams.

#[local] Instance extends_trans : Transitive extends.
Proof. intros a b c. unfold extends. apply transitivity. Qed.

Lemma take_prefix_mono {A} (l1 l2 : list A) n m :
  l1 `prefix_of` l2 → n ≤ m → take n l1 `prefix_of` take m l2.
Proof.
  intros [k ->] Hnm. rewrite take_app. apply prefix_app_r.
  replace n with (n `min` m) by lia. rewrite <- take_take. apply prefix_take.
Qed.

Lemma extends_grows a b : extends a b → grows a b.
Proof.
  unfold extends, grows, committed. intros Hab.
  apply take_prefix_mono; [done|]. apply prefix_length in Hab. lia.
Qed.

#[local] Instance grows_trans : Transitive grows.
Proof. intros a b c. unfold grows. apply transitivity. Qed.

#[local] Instance extends_dec : RelDecision extends.
Proof. intros a b. unfold extends. apply _. Defined.

#[local] Instance grows_dec : RelDecision grows.
Proof. intros a b. unfold grows. apply _. Defined.

Lemma prefix_extension_cumulative s : prefix_extension s → cumulative s.
Proof.
  unfold prefix_extension, cumulative.
  induction 1 as [|a s Hs IH Hhd]; constructor; [done|].
  destruct Hhd; constructor. by apply extends_grows.
Qed.

(** In a cumulative stream the loop has printed, after any snapshot, exactly
    the complete tokens of that snapshot, and [pre] counts them. *)
Lemma simple_loop_cumulative s o w :
  cumulative s → last s = Some o →
  ∃ chunks : list (list string),
    SimpleChatIO.loop s w
    = (SimpleChatIO.Locals (length (tokens o) - 1) (Some (tokens o)),
       writes ((λ g, Py.join " " g +:+ " ") <$> chunks) w)
    ∧ Forall (λ g, g ≠ []) chunks
    ∧ concat chunks = committed o.
Proof.
  revert o. induction s as [|x s IH] using rev_ind; intros o Hs Hlast; [done|].
  rewrite last_snoc in Hlast. injection Hlast as ->.
  apply Sorted_snoc_inv in Hs as [Hs Hgrow]. rewrite simple_loop_snoc.
  destruct (last s) as [y|] eqn:Hy.
  - destruct (IH y Hs eq_refl) as (chunks & -> & Hne & Hcat).
    specialize (Hgrow y eq_refl).
    destruct (simple_loop_body_writes
                (SimpleChatIO.Locals (length (tokens y) - 1) (Some (tokens y)))
                (writes ((λ g, Py.join " " g +:+ " ") <$> chunks) w) o)
      as (more & -> & Hne' & Hcat').
    pose proof (prefix_length _ _ Hgrow) as Hlen.
    rewrite !length_committed in Hlen. simpl in *.
    exists (chunks ++ more). split_and!.
    + rewrite writes_writes, fmap_app. by rewrite Nat.max_r by lia.
    + by apply Forall_app.
    + rewrite concat_app, Hcat, Hcat'. unfold Py.slice. fold (committed o).
      destruct Hgrow as [k Hk]. rewrite Hk at 1.
      rewrite <- length_committed, Hk, drop_app_length. done.
  - apply last_None in Hy as ->.
    destruct (simple_loop_body_writes (SimpleChatIO.Locals 0 None) w o)
      as (more & Heq & Hne' & Hcat').
    exists more. split_and!; [|done|].
    + change (SimpleChatIO.loop [] w) with (SimpleChatIO.Locals 0 None, w).
      by rewrite Heq.
    + by rewrite Hcat'.
Qed.

(** ** Texts that grow at their end are cumulative *)

Lemma lstrip_app s more :
  Py.lstrip s ≠ EmptyString → Py.lstrip (s +:+ more) = Py.lstrip s +:+ more.
Proof.
  induction s as [|c s IH]; [done|].
  rewrite sapp_cons. simpl. by destruct (Py.isspace c).
Qed.

Lemma rstrip_app s more : ∃ e, Py.rstrip (s +:+ more) = Py.rstrip s +:+ e.
Proof.
  induction s as [|c s [e He]]; [by eexists|].
  rewrite sapp_cons. simpl. rewrite He.
  destruct (Py.rstrip s) as [|d u].
  - rewrite sapp_nil_l. destruct (Py.isspace c).
    + by eexists.
    + destruct e; by eexists.
  - by exists e.
Qed.

Lemma strip_app s more : ∃ e, Py.strip (s +:+ more) = Py.strip s +:+ e.
Proof.
  unfold Py.strip. destruct (Py.lstrip s) as [|c u] eqn:Hs.
  - by eexists.
  - rewrite lstrip_app, Hs by (by rewrite Hs). apply rstrip_app.
Qed.

Lemma take_init_cons {A} (x : A) l :
  l ≠ [] → take (length (x :: l) - 1) (x :: l) = x :: take (length l - 1) l.
Proof. destruct l; [done|]. simpl. by rewrite Nat.sub_0_r. Qed.

(** The complete fields of a string stay in place when the string grows. *)
Lemma split_app_init sep s more :
  take (length (Py.split sep s) - 1) (Py.split sep s)
    `prefix_of` take (length (Py.split sep (s +:+ more)) - 1)
                  (Py.split sep (s +:+ more)).
Proof.
  induction s as [|c s IH]; [apply prefix_nil|].
  rewrite sapp_cons. simpl. destruct (Ascii.eqb c sep).
  - rewrite !take_init_cons by apply split_not_nil. by apply prefix_cons.
  - pose proof (split_not_nil sep s) as Hs.
    pose proof (split_not_nil sep (s +:+ more)) as Hs'.
    destruct (Py.split sep s) as [|t ts]; [done|].
    destruct (Py.split sep (s +:+ more)) as [|t' ts']; [done|].
    destruct ts as [|t2 ts]; [apply prefix_nil|].
    rewrite (take_init_cons t) in IH by done.
    rewrite (take_init_cons (String c t)) by done.
    destruct ts' as [|t2' ts'].
    { simpl in IH. by apply prefix_nil_not in IH. }
    rewrite (take_init_cons t') in IH by done.
    rewrite (take_init_cons (String c t')) by done.
    rewrite (prefix_cons_inv_1 _ _ _ _ IH).
    apply prefix_cons. by apply prefix_cons_inv_2 in IH.
Qed.

Lemma text_grows_grows a b : text_grows a b → grows a b.
Proof.
  intros [more Hb]. unfold grows, committed, tokens. rewrite Hb.
  destruct (strip_app (text a) more) as [e ->]. apply split_app_init.
Qed.

(** A stream in which every text is the text before it with more characters
    at the end is cumulative. *)
Lemma growing_text_cumulative s : Sorted text_grows s → cumulative s.
Proof.
  unfold cumulative.
  induction 1 as [|a s Hs IH Hhd]; constructor; [done|].
  destruct Hhd; constructor. by apply text_grows_grows.
Qed.

(** Without the invariant the printed chunks need not make up the last
    text: here "a b" is printed and "x" is returned. *)
Remark stream_output_not_cumulative :
  SimpleChatIO.stream_output {| SimpleChatIO.multiline := false |}
    [Outputs "a b c"; Outputs "x"] world0
  = (Ok "x", writes ["a b "; nl] world0).
Proof. reflexivity. Qed.

(** [FileInputChatIO.stream_output] is the same code as
    [SimpleChatIO.stream_output]. *)
Lemma file_loop_simple s w :
  FileInputChatIO.loop s w
  = (FileInputChatIO.Locals (SimpleChatIO.pre (SimpleChatIO.loop s w).1)
       (SimpleChatIO.output_text (SimpleChatIO.loop s w).1),
     (SimpleChatIO.loop s w).2).
Proof.
  induction s as [|x s IH] using rev_ind; [done|].
  unfold FileInputChatIO.loop, SimpleChatIO.loop in *. rewrite !foldl_app, IH. simpl.
  destruct (foldl SimpleChatIO.loop_body _ s) as [vars w']. simpl.
  by destruct (_ <? _).
Qed.

Lemma file_stream_output_simple fself sself s w :
  FileInputChatIO.stream_output fself s w = SimpleChatIO.stream_output sself s w.
Proof.
  unfold FileInputChatIO.stream_output, SimpleChatIO.stream_output.
  rewrite file_loop_simple. by destruct (SimpleChatIO.loop s w) as [[p ot] w'].
Qed.

(** ** Properties of the plain printers *)

(** C1 (diff completeness).  For a non-empty cumulative stream,
    [SimpleChatIO.stream_output] writes some chunks during the loop, each a
    non-empty group of tokens joined by single spaces and followed by a space,
    and then the closing chunk followed by a line end.  The groups and the
    closing group, put together in order, are the token list of the last
    snapshot; joined by single spaces they are the last snapshot's text
    without the white space at its ends, which is also the returned string and
    what the console shows before the line end. *)
Theorem stream_output_complete self s o w :
  cumulative s → last s = Some o →
  ∃ (chunks : list (list string)) (closing : list string),
    SimpleChatIO.stream_output self s w
    = (Ok (Py.strip (text o)),
       writes (((λ g, Py.join " " g +:+ " ") <$> chunks)
               ++ [Py.join " " closing +:+ nl]) w)
    ∧ concat chunks ++ closing = tokens o
    ∧ Py.join " " (Py.join " " <$> (chunks ++ [closing])) = Py.strip (text o)
    ∧ shown (((λ g, Py.join " " g +:+ " ") <$> chunks)
             ++ [Py.join " " closing +:+ nl])
      = Py.strip (text o) +:+ nl.
Proof.
  intros Hs Hlast.
  destruct (simple_loop_cumulative s o w Hs Hlast) as (chunks & Hloop & Hne & Hcat).
  set (closing := drop (length (tokens o) - 1) (tokens o)).
  assert (concat chunks ++ closing = tokens o) as Hall.
  { rewrite Hcat. apply take_drop. }
  assert (Py.join " " (Py.join " " <$> (chunks ++ [closing])) = Py.strip (text o))
    as Hjoin.
  { rewrite join_concat.
    - rewrite concat_app. simpl. by rewrite app_nil_r, Hall, join_tokens.
    - apply Forall_app. split; [done|]. constructor; [|done].
      intros Hnil. apply (f_equal length) in Hnil. unfold closing in Hnil.
      rewrite length_drop in Hnil. pose proof (length_tokens_pos o). simpl in Hnil. lia. }
  exists chunks, closing. split_and!; [|done|done|].
  - unfold SimpleChatIO.stream_output. rewrite Hloop. simpl.
    unfold print_. by rewrite write_writes, writes_writes, join_tokens.
  - rewrite (list_fmap_compose (Py.join " ") (λ c, c +:+ " ")), shown_chunks.
    by rewrite <- Hjoin, fmap_app.
Qed.

Lemma stream_output_complete_witness :
  cumulative fox_stream
  ∧ ∃ chunks closing,
      SimpleChatIO.stream_output {| SimpleChatIO.multiline := false |} fox_stream world0
      = (Ok "The quick brown fox",
         writes (((λ g, Py.join " " g +:+ " ") <$> chunks)
                 ++ [Py.join " " closing +:+ nl]) world0)
      ∧ concat chunks ++ closing = ["The"; "quick"; "brown"; "fox"]
      ∧ Py.join " " (Py.join " " <$> (chunks ++ [closing])) = "The quick brown fox"
      ∧ shown (((λ g, Py.join " " g +:+ " ") <$> chunks)
               ++ [Py.join " " closing +:+ nl])
        = "The quick brown fox" +:+ nl.
Proof.
  assert (cumulative fox_stream) as Hs.
  { unfold cumulative. apply (bool_decide_unpack _). by vm_compute. }
  split; [exact Hs|].
  exact (stream_output_complete {| SimpleChatIO.multiline := false |} fox_stream
           (Outputs " The quick brown fox ") world0 Hs eq_refl).
Defined.

(** C10.  For a non-empty stream, whatever its snapshots, the string returned
    by [SimpleChatIO.stream_output] and by [FileInputChatIO.stream_output] is
    the text of the last snapshot with the white space at its two ends
    removed: the text is that string between two runs of white space, and the
    string neither starts nor ends with a white-space character.  Nothing in
    between is touched. *)
Theorem stream_output_returns_stripped sself fself s o w :
  last s = Some o →
  (SimpleChatIO.stream_output sself s w).1 = Ok (Py.strip (text o))
  ∧ (FileInputChatIO.stream_output fself s w).1 = Ok (Py.strip (text o))
  ∧ ∃ l r,
      text o = l +:+ Py.strip (text o) +:+ r
      ∧ all_space l = true ∧ all_space r = true
      ∧ (∀ c t, Py.strip (text o) = String c t → Py.isspace c = false)
      ∧ (∀ t c, Py.strip (text o) = t +:+ String c EmptyString → Py.isspace c = false).
Proof.
  intros Hlast.
  assert ((SimpleChatIO.stream_output sself s w).1 = Ok (Py.strip (text o))) as Hret.
  { pose proof (simple_loop_text s o w Hlast) as Htext.
    unfold SimpleChatIO.stream_output.
    destruct (SimpleChatIO.loop s w) as [vars w']. simpl in Htext.
    rewrite Htext. simpl. by rewrite join_tokens. }
  split_and!; [done| |apply strip_spec].
  by rewrite (file_stream_output_simple fself sself).
Qed.

Lemma stream_output_returns_stripped_witness :
  last spaced_stream = Some (Outputs spaced_text)
  ∧ (SimpleChatIO.stream_output {| SimpleChatIO.multiline := false |}
       spaced_stream world0).1
    = Ok ("a  b" +:+ nl +:+ "c")
  ∧ (FileInputChatIO.stream_output {| FileInputChatIO.input_file := "in.txt" |}
       spaced_stream world0).1
    = Ok ("a  b" +:+ nl +:+ "c").
Proof.
  split; [reflexivity|].
  pose proof (stream_output_returns_stripped
                {| SimpleChatIO.multiline := false |}
                {| FileInputChatIO.input_file := "in.txt" |}
                spaced_stream (Outputs spaced_text) world0 eq_refl)
    as (Hsimple & Hfile & _).
  split; [exact Hsimple|exact Hfile].
Defined.

(** C4.  On a stream without snapshots the loop body never runs, so
    [output_text] is unbound when the closing [print] reads it: both plain
    printers write nothing and raise [UnboundLocalError]; no empty string is
    returned. *)
Theorem stream_output_empty_raises sself fself w :
  SimpleChatIO.stream_output sself [] w = (Raise UnboundLocalError, w)
  ∧ FileInputChatIO.stream_output fself [] w = (Raise UnboundLocalError, w).
Proof. by split. Qed.

(** C8.  On the snapshots "Hello", "Hello there", "Hello there friend" the
    loop of [SimpleChatIO.stream_output] has written nothing after the first
    snapshot, the chunk "Hello" after the second and the chunk "there" after
    the third; the closing chunk "friend" is written at the end of the stream
    and "Hello there friend" is returned. *)
Theorem stream_output_hello self w :
  (SimpleChatIO.loop (take 1 hello_stream) w).2 = w
  ∧ (SimpleChatIO.loop (take 2 hello_stream) w).2 = print_ "Hello" " " w
  ∧ (SimpleChatIO.loop hello_stream w).2
    = print_ "there" " " (print_ "Hello" " " w)
  ∧ SimpleChatIO.stream_output self hello_stream w
    = (Ok "Hello there friend",
       print_ "friend" nl (print_ "there" " " (print_ "Hello" " " w))).
Proof. by split_and!. Qed.

(** The loop and the closing [print] only add writes to the console. *)
Lemma simple_foldl_writes s st :
  ∃ ws, (foldl SimpleChatIO.loop_body st s).2 = writes ws st.2.
Proof.
  revert st. induction s as [|x s IH]; intros [vars w].
  - exists []. simpl. by rewrite writes_nil.
  - destruct (simple_loop_body_writes vars w x) as (chunks & Heq & _).
    destruct (IH (SimpleChatIO.loop_body (vars, w) x)) as [ws Hws].
    change (foldl SimpleChatIO.loop_body (vars, w) (x :: s))
      with (foldl SimpleChatIO.loop_body (SimpleChatIO.loop_body (vars, w) x) s).
    rewrite Hws, Heq. simpl. rewrite writes_writes. eauto.
Qed.

Lemma simple_stream_output_writes self s w :
  ∃ ws, (SimpleChatIO.stream_output self s w).2 = writes ws (SimpleChatIO.loop s w).2.
Proof.
  unfold SimpleChatIO.stream_output.
  destruct (SimpleChatIO.loop s w) as [[p [toks|]] w']; simpl.
  - by eexists [_].
  - exists []. by rewrite writes_nil.
Qed.

(** C5 (no premature emission).  In a cumulative stream, one in which the
    complete tokens of each snapshot stay in place in the next while the last
    token may still grow (every stream whose token lists extend one another
    is such a stream), take any snapshot [x], with [s1] before it and [s2]
    after it.  While it consumes [x], the loop of
    [SimpleChatIO.stream_output] writes at most one chunk, the tokens
    [pre .. now-1] of [x], and that write is part of what the whole call
    writes.  Each token of the chunk stands among the first [N-1] tokens of
    [x], and stands unchanged at the same position, again before the last
    token, in every later snapshot. *)
Theorem no_premature_emission self s1 x s2 w :
  cumulative (s1 ++ x :: s2) →
  let vars := (SimpleChatIO.loop s1 w).1 in
  let now := length (tokens x) - 1 in
  let emitted := Py.slice (SimpleChatIO.pre vars) now (tokens x) in
  (SimpleChatIO.loop (s1 ++ [x]) w).2
  = (if SimpleChatIO.pre vars <? now
     then print_ (Py.join " " emitted) " " (SimpleChatIO.loop s1 w).2
     else (SimpleChatIO.loop s1 w).2)
  ∧ stdout (SimpleChatIO.loop (s1 ++ [x]) w).2
      `prefix_of` stdout (SimpleChatIO.stream_output self (s1 ++ x :: s2) w).2
  ∧ ∀ k tok, emitted !! k = Some tok →
      SimpleChatIO.pre vars + k < now
      ∧ tokens x !! (SimpleChatIO.pre vars + k) = Some tok
      ∧ ∀ y, y ∈ s2 →
          tokens y !! (SimpleChatIO.pre vars + k) = Some tok
          ∧ SimpleChatIO.pre vars + k < length (tokens y) - 1.
Proof.
  intros Hs vars now emitted. split_and!.
  - rewrite simple_loop_snoc. subst vars emitted now.
    destruct (SimpleChatIO.loop s1 w) as [vars w1]. simpl.
    fold (tokens x). by destruct (_ <? _).
  - destruct (simple_stream_output_writes self (s1 ++ x :: s2) w) as [ws ->].
    rewrite (cons_middle x s1 s2), app_assoc.
    unfold SimpleChatIO.loop at 2. rewrite foldl_app.
    fold (SimpleChatIO.loop (s1 ++ [x]) w).
    destruct (simple_foldl_writes s2 (SimpleChatIO.loop (s1 ++ [x]) w)) as [ws' ->].
    rewrite !stdout_writes, <- app_assoc. by apply prefix_app_r.
  - intros k tok Hk. subst emitted. unfold Py.slice in Hk.
    rewrite lookup_drop in Hk. apply lookup_take_Some in Hk as [Hk Hlt].
    split_and!; [done|done|]. intros y Hy.
    assert (grows x y) as Hxy by (by eapply (Sorted_later grows)).
    assert (committed x !! (SimpleChatIO.pre vars + k) = Some tok) as Hx.
    { unfold committed. by rewrite lookup_take_lt. }
    pose proof (prefix_lookup_Some _ _ _ _ Hx Hxy) as Hy'.
    unfold committed in Hy'. by apply lookup_take_Some in Hy'.
Qed.

Lemma no_premature_emission_witness :
  cumulative (take 1 growing_stream ++ Outputs "Hello wor" :: drop 2 growing_stream)
  ∧ ∀ k tok, ["Hello"] !! k = Some tok →
      0 + k < 1
      ∧ ["Hello"; "wor"] !! (0 + k) = Some tok
      ∧ ∀ y, y ∈ [Outputs "Hello world again"] →
          tokens y !! (0 + k) = Some tok ∧ 0 + k < length (tokens y) - 1.
Proof.
  assert (cumulative
            (take 1 growing_stream ++ Outputs "Hello wor" :: drop 2 growing_stream)) as Hs.
  { unfold cumulative. apply (bool_decide_unpack _). by vm_compute. }
  split; [exact Hs|].
  exact (proj2 (proj2 (no_premature_emission {| SimpleChatIO.multiline := false |}
                         (take 1 growing_stream) (Outputs "Hello wor")
                         (drop 2 growing_stream) world0 Hs))).
Defined.

(** The stream with the growing last word is cumulative and does not satisfy
    the strict reading [prefix_extension]. *)
Remark growing_stream_not_strict :
  cumulative growing_stream ∧ ¬ prefix_extension growing_stream.
Proof.
  split.
  - unfold cumulative. apply (bool_decide_unpack _). by vm_compute.
  - unfold prefix_extension. apply (bool_decide_eq_false_1 _). by vm_compute.
Qed.

(** ** Properties of the prompting functions *)

(** C2.  In multi-line mode [SimpleChatIO.prompt_for_input] calls the
    [async def] function without awaiting it, so [line] is a coroutine object
    and the first [line.strip()] raises [AttributeError]: whatever the peer
    has sent, no frame is read, nothing is sent or printed, and no string is
    returned.  In particular the session that replies "line one", "line two"
    and closes does not yield "line one\nline two". *)
Theorem prompt_for_input_multiline_raises fuel role w :
  SimpleChatIO.prompt_for_input (S fuel) {| SimpleChatIO.multiline := true |} role w
  = Some (Raise AttributeError, w)
  ∧ SimpleChatIO.prompt_for_input (S fuel) {| SimpleChatIO.multiline := true |}
      role bridge_session
    ≠ Some (Ok ("line one" +:+ nl +:+ "line two"), bridge_session).
Proof. by split. Qed.

(** C3, as stated, fails: in single-line mode the line typed on the keyboard
    is returned, the frame waiting on the socket is neither read nor
    returned, and nothing is sent over the socket. *)
Lemma prompt_for_input_single_line_not_bridged :
  SimpleChatIO.prompt_for_input 0 {| SimpleChatIO.multiline := false |} "USER" desk
  = Some (Ok "typed here", World ["USER: "] [] [] [] ["from the peer"] ∅)
  ∧ ws_inbox desk = ["from the peer"]
  ∧ Ok "typed here" ≠ Ok (A:=string) "from the peer".
Proof. by split_and!. Qed.

(** C3, amended.  In single-line mode [SimpleChatIO.prompt_for_input] writes
    the label [role ++ ": "] to the console, reads one line from the key
    board and returns it as it is; the socket is left alone: nothing is sent
    and no frame is consumed. *)
Theorem prompt_for_input_single_line fuel self role w line rest :
  SimpleChatIO.multiline self = false →
  stdin w = line :: rest →
  SimpleChatIO.prompt_for_input fuel self role w
  = Some (Ok line,
          World (stdout w ++ [role +:+ ": "]) rest (live w)
            (ws_sent w) (ws_inbox w) (files w)).
Proof.
  intros Hmode Hin. unfold SimpleChatIO.prompt_for_input, input.
  rewrite Hmode. simpl. by rewrite Hin.
Qed.

Lemma prompt_for_input_single_line_witness :
  SimpleChatIO.prompt_for_input 0 {| SimpleChatIO.multiline := false |} "USER" desk
  = Some (Ok "typed here", World ["USER: "] [] [] [] ["from the peer"] ∅).
Proof.
  exact (prompt_for_input_single_line 0 {| SimpleChatIO.multiline := false |}
           "USER" desk "typed here" [] eq_refl eq_refl).
Defined.

(** C9 (fixed-file stability).  When the configured file exists with contents
    [c], [FileInputChatIO.prompt_for_input] returns [c], the whole contents,
    and leaves the files as they were; a second call right after it returns
    [c] again, and so does a call in any later world in which that file still
    has the same contents. *)
Theorem prompt_for_input_file_stable self role1 role2 w c :
  files w !! FileInputChatIO.input_file self = Some c →
  ∃ w1 w2,
    FileInputChatIO.prompt_for_input self role1 w = (Ok c, w1)
    ∧ FileInputChatIO.prompt_for_input self role2 w1 = (Ok c, w2)
    ∧ files w1 = files w ∧ files w2 = files w
    ∧ ∀ w', files w' !! FileInputChatIO.input_file self = Some c →
        (FileInputChatIO.prompt_for_input self role2 w').1 = Ok c.
Proof.
  intros Hfile.
  assert (∀ role w', files w' !! FileInputChatIO.input_file self = Some c →
            FileInputChatIO.prompt_for_input self role w'
            = (Ok c, print_ ("[!OP:" +:+ role +:+ "]: " +:+ c) nl w')) as Hcall.
  { intros role w' Hw'. unfold FileInputChatIO.prompt_for_input, read_file.
    by rewrite Hw'. }
  eexists _, _. split_and!.
  - by apply Hcall.
  - by apply Hcall.
  - done.
  - done.
  - intros w' Hw'. by rewrite Hcall.
Qed.

Lemma prompt_for_input_file_stable_witness :
  ∃ w1 w2,
    FileInputChatIO.prompt_for_input prompt_file "USER" disk
    = (Ok "Summarise the report.", w1)
    ∧ FileInputChatIO.prompt_for_input prompt_file "USER" w1
      = (Ok "Summarise the report.", w2)
    ∧ files w1 = files disk ∧ files w2 = files disk.
Proof.
  destruct (prompt_for_input_file_stable prompt_file "USER" "USER" disk
              "Summarise the report." eq_refl)
    as (w1 & w2 & H1 & H2 & H3 & H4 & _).
  exists w1, w2. exact (conj H1 (conj H2 (conj H3 H4))).
Defined.

(** ** Properties of the markdown renderer *)

Lemma splitlines_line l rest :
  one_line l = true → Py.splitlines (l +:+ nl +:+ rest) = l :: Py.splitlines rest.
Proof.
  induction l as [|c l IH]; intros Hl.
  - rewrite sapp_nil_l. by destruct rest.
  - simpl in Hl. apply andb_true_iff in Hl as [Hc%negb_true_iff Hl].
    rewrite sapp_cons. simpl. by rewrite Hc, IH.
Qed.

Lemma splitlines_last l :
  one_line l = true → l ≠ EmptyString → Py.splitlines l = [l].
Proof.
  induction l as [|c l IH]; intros Hl Hne; [done|].
  simpl in Hl. apply andb_true_iff in Hl as [Hc%negb_true_iff Hl].
  simpl. rewrite Hc. destruct l as [|d l]; [done|]. by rewrite IH.
Qed.

(** The lines of a text written as lines joined by LF. *)
Lemma splitlines_join ls l :
  Forall (λ l, one_line l = true) ls → one_line l = true → l ≠ EmptyString →
  Py.splitlines (Py.join nl (ls ++ [l])) = ls ++ [l].
Proof.
  intros Hls Hl Hne. induction Hls as [|x ls Hx Hls IH].
  - by apply splitlines_last.
  - change ((x :: ls) ++ [l]) with (x :: (ls ++ [l])).
    rewrite join_cons; [|by destruct ls]. by rewrite splitlines_line, IH.
Qed.

Lemma join_empty l : Py.join EmptyString l = shown l.
Proof.
  induction l as [|x l IH]; [done|].
  destruct l as [|y l]; [by rewrite <- (sapp_nil_r x) at 1|].
  rewrite join_cons; [|done]. by rewrite sapp_nil_l, IH.
Qed.

Lemma foldl_lines_body acc ls :
  foldl RichChatIO.lines_body acc ls
  = acc ++ concat ((λ l, [l; if Py.startswith l "```" then nl else "  " +:+ nl]) <$> ls).
Proof.
  revert acc. induction ls as [|l ls IH]; intros acc; simpl.
  - by rewrite app_nil_r.
  - rewrite IH. unfold RichChatIO.lines_body.
    destruct (Py.startswith l "```"); by rewrite <- !app_assoc.
Qed.

(** The markdown source of a text, line by line: a line that starts with the
    fence marker is followed by LF, any other line by two spaces and LF. *)
Lemma markdown_source_lines text :
  RichChatIO.markdown_source text
  = shown ((λ l, l +:+ (if Py.startswith l "```" then nl else "  " +:+ nl))
           <$> Py.splitlines text).
Proof.
  unfold RichChatIO.markdown_source. rewrite foldl_lines_body, join_empty, app_nil_l.
  induction (Py.splitlines text) as [|l ls IH]; [done|].
  rewrite !fmap_cons, concat_cons, shown_app, IH.
  unfold shown at 1. simpl. by rewrite sapp_nil_r.
Qed.

(** C6, as stated, fails: the code line between the two fence lines gets the
    two-space suffix; only the fence lines are spared. *)
Lemma fenced_interior_suffixed :
  RichChatIO.markdown_source fenced_text
  = "```python" +:+ nl +:+ "print(1)  " +:+ nl +:+ "```" +:+ nl
  ∧ RichChatIO.markdown_source fenced_text ≠ fenced_unsuffixed.
Proof. by split. Qed.

(** C6, amended.  For a text made of an opening fence line, code lines and a
    closing fence line, joined by LF, the line transformation leaves the two
    fence lines without suffix and gives every code line between them the
    two-space suffix, like any other line. *)
Theorem fenced_block_source opener body closer :
  Py.startswith opener "```" = true →
  Py.startswith closer "```" = true →
  one_line opener = true →
  one_line closer = true →
  Forall (λ l, one_line l = true ∧ Py.startswith l "```" = false) body →
  RichChatIO.markdown_source (Py.join nl (opener :: body ++ [closer]))
  = opener +:+ nl
    +:+ shown ((λ l, l +:+ "  " +:+ nl) <$> body)
    +:+ closer +:+ nl.
Proof.
  intros Hopen Hclose Hl1 Hl2 Hbody.
  rewrite markdown_source_lines.
  change (opener :: body ++ [closer]) with ((opener :: body) ++ [closer]).
  rewrite (splitlines_join (opener :: body) closer).
  - assert ((λ l, l +:+ (if Py.startswith l "```" then nl else "  " +:+ nl)) <$> body
            = (λ l, l +:+ "  " +:+ nl) <$> body) as Hsame.
    { induction Hbody as [|l body [_ Hl] _ IH]; [done|].
      by rewrite !fmap_cons, Hl, IH. }
    rewrite fmap_app, fmap_cons, Hsame, <- app_comm_cons, shown_cons, shown_app.
    rewrite Hopen. simpl. rewrite Hclose. unfold shown at 2. simpl.
    by rewrite sapp_nil_r, !sapp_assoc.
  - constructor; [done|]. eapply Forall_impl; [exact Hbody|]. by intros l [? _].
  - done.
  - by destruct closer.
Qed.

Lemma fenced_block_source_witness :
  RichChatIO.markdown_source fenced_text
  = "```python" +:+ nl +:+ shown ["print(1)" +:+ "  " +:+ nl] +:+ "```" +:+ nl.
Proof.
  apply (fenced_block_source "```python" ["print(1)"] "```");
    [reflexivity|reflexivity|reflexivity|reflexivity|].
  constructor; [split; reflexivity|constructor].
Defined.

Lemma rich_foldl_live s st :
  (foldl RichChatIO.loop_body st s).2
  = shows ((λ o, RichChatIO.markdown_source (text o)) <$> omap id s) st.2.
Proof.
  revert st. induction s as [|[o|] s IH]; intros [t w]; simpl.
  - destruct w. unfold shows. simpl. by rewrite app_nil_r.
  - rewrite IH. unfold shows, live_update. simpl. by rewrite <- app_assoc.
  - by rewrite IH.
Qed.

(** C7.  Every redraw of [RichChatIO.stream_output] shows the markdown source
    computed from the raw text of its own snapshot and from nothing else: the
    sources handed to the live display are, in order, [markdown_source] of the
    texts of the truthy snapshots.  So two successive snapshots with the same
    raw text give the same source twice, whatever was drawn before them; no
    suffix carries over from one redraw to the next. *)
Theorem markdown_source_recomputed s1 o s2 w :
  let redraws (s : list (option outputs)) :=
    (λ o, RichChatIO.markdown_source (text o)) <$> omap id s in
  live (RichChatIO.stream_output (s1 ++ Some o :: Some o :: s2) w).2
  = live w ++ redraws s1
    ++ RichChatIO.markdown_source (text o)
    :: RichChatIO.markdown_source (text o)
    :: redraws s2
  ∧ ∀ s, live (RichChatIO.stream_output s w).2 = live w ++ redraws s.
Proof.
  intros redraws.
  assert (∀ s, live (RichChatIO.stream_output s w).2 = live w ++ redraws s) as Hall.
  { intros s. unfold RichChatIO.stream_output.
    pose proof (rich_foldl_live s (None, w)) as Hlive.
    destruct (foldl RichChatIO.loop_body (None, w) s) as [t w']. simpl in Hlive.
    subst w'. by destruct t. }
  split; [|done]. rewrite Hall. unfold redraws.
  by rewrite omap_app, fmap_app.
Qed.

(** The transformation is made for raw text.  Applied to its own result it
    would add two more spaces to a line; [stream_output] never does so, it
    starts from [outputs["text"]] at every snapshot. *)
Remark markdown_source_twice :
  RichChatIO.markdown_source "a" = "a  " +:+ nl
  ∧ RichChatIO.markdown_source (RichChatIO.markdown_source "a") = "a    " +:+ nl.
Proof. by split. Qed.

(** * Further properties of the code *)

(** ** The plain printers on arbitrary streams *)

Lemma length_slice_tokens p o :
  length (Py.slice p (length (tokens o) - 1) (tokens o)) = length (tokens o) - 1 - p.
Proof. unfold Py.slice. rewrite length_drop, length_take. lia. Qed.

(** The loop from any state: [pre] ends as the largest [N - 1] met, the
    tokens written are as many as [pre] has grown, and there is at most one
    write for each snapshot. *)
Lemma simple_foldl_count s vars w :
  ∃ (chunks : list (list string)) ot,
    foldl SimpleChatIO.loop_body (vars, w) s
    = (SimpleChatIO.Locals
         (SimpleChatIO.pre vars `max` max_list_with (λ o, length (tokens o) - 1) s) ot,
       writes ((λ g, Py.join " " g +:+ " ") <$> chunks) w)
    ∧ Forall (λ g, g ≠ []) chunks
    ∧ length chunks ≤ length s
    ∧ length (concat chunks)
      = SimpleChatIO.pre vars `max` max_list_with (λ o, length (tokens o) - 1) s
        - SimpleChatIO.pre vars.
Proof.
  revert vars w. induction s as [|x s IH]; intros vars w.
  - exists [], (SimpleChatIO.output_text vars). simpl. split_and!; [|done|done|lia].
    rewrite writes_nil, Nat.max_0_r. by destruct vars.
  - destruct (simple_loop_body_writes vars w x) as (c1 & Hbody & Hne1 & Hcat1).
    change (foldl SimpleChatIO.loop_body (vars, w) (x :: s))
      with (foldl SimpleChatIO.loop_body (SimpleChatIO.loop_body (vars, w) x) s).
    rewrite Hbody.
    destruct (IH (SimpleChatIO.Locals
                    (SimpleChatIO.pre vars `max` (length (tokens x) - 1))
                    (Some (tokens x)))
                 (writes ((λ g, Py.join " " g +:+ " ") <$> c1) w))
      as (c2 & ot & -> & Hne2 & Hlen2 & Hcat2).
    assert (length c1 ≤ 1) as Hlen1.
    { destruct c1 as [|g1 [|g2 c1]]; simpl; [lia|lia|].
      apply (f_equal length) in Hcat1. rewrite length_slice_tokens in Hcat1.
      inversion Hne1 as [|? ? Hg1 Hne1']; subst.
      inversion Hne1' as [|? ? Hg2 _]; subst.
      simpl in Hcat1. rewrite !length_app in Hcat1.
      destruct (Nat.ltb_spec (SimpleChatIO.pre vars) (length (tokens x) - 1)) as [Hlt|Hge].
      - unfold SimpleChatIO.loop_body in Hbody. fold (tokens x) in Hbody.
        apply Nat.ltb_lt in Hlt. rewrite Hlt in Hbody.
        injection Hbody as _ Hw. by apply app_inv_head in Hw.
      - destruct g1; [done|]. simpl in Hcat1. lia. }
    apply (f_equal length) in Hcat1. rewrite length_slice_tokens in Hcat1.
    simpl in *. exists (c1 ++ c2), ot. split_and!.
    + by rewrite writes_writes, fmap_app, Nat.max_assoc.
    + by apply Forall_app.
    + rewrite length_app. lia.
    + rewrite concat_app, length_app. lia.
Qed.

Lemma max_list_with_elem_of_le {A} (f : A → nat) x l :
  x ∈ l → f x ≤ max_list_with f l.
Proof.
  induction 1 as [x l|x y l _ IH]; simpl; lia.
Qed.

(** X1.  Whatever the stream, [SimpleChatIO.stream_output] only adds writes
    to the console, at most one for each snapshot and one at the end: what
    was on the console stays, and the keyboard, the live display, the socket
    and the files are as before. *)
Theorem stream_output_only_writes self s w :
  ∃ ws,
    (SimpleChatIO.stream_output self s w).2
    = World (stdout w ++ ws) (stdin w) (live w) (ws_sent w) (ws_inbox w) (files w)
    ∧ length ws ≤ S (length s).
Proof.
  destruct (simple_foldl_count s (SimpleChatIO.Locals 0 None) w)
    as (chunks & ot & Hloop & _ & Hlen & _).
  unfold SimpleChatIO.stream_output, SimpleChatIO.loop. rewrite Hloop. simpl.
  destruct ot as [toks|]; simpl.
  - eexists (_ ++ [_]). split.
    + unfold print_. rewrite write_writes, writes_writes. reflexivity.
    + rewrite length_app, length_fmap. simpl. lia.
  - exists ((λ g, Py.join " " g +:+ " ") <$> chunks). split; [done|].
    rewrite length_fmap. lia.
Qed.

(** The loop from any state, token by token: the tokens written are as many
    as [pre] has grown, and the one written at position [pre + k] is the
    token at that position of the first snapshot with more than [pre + k]
    complete tokens. *)
Lemma simple_foldl_written s vars w :
  ∃ (chunks : list (list string)) ot,
    foldl SimpleChatIO.loop_body (vars, w) s
    = (SimpleChatIO.Locals
         (SimpleChatIO.pre vars `max` max_list_with (λ o, length (tokens o) - 1) s) ot,
       writes ((λ g, Py.join " " g +:+ " ") <$> chunks) w)
    ∧ Forall (λ g, g ≠ []) chunks
    ∧ length (concat chunks)
      = SimpleChatIO.pre vars `max` max_list_with (λ o, length (tokens o) - 1) s
        - SimpleChatIO.pre vars
    ∧ ∀ k, k < length (concat chunks) →
        ∃ s1 x s2,
          s = s1 ++ x :: s2
          ∧ SimpleChatIO.pre vars `max` max_list_with (λ o, length (tokens o) - 1) s1
            ≤ SimpleChatIO.pre vars + k
          ∧ SimpleChatIO.pre vars + k < length (tokens x) - 1
          ∧ concat chunks !! k = tokens x !! (SimpleChatIO.pre vars + k).
Proof.
  revert vars w. induction s as [|x s IH]; intros vars w.
  - exists [], (SimpleChatIO.output_text vars). simpl.
    split_and!; [|done|lia|intros k Hk; lia].
    rewrite writes_nil, Nat.max_0_r. by destruct vars.
  - destruct (simple_loop_body_writes vars w x) as (c1 & Hbody & Hne1 & Hcat1).
    change (foldl SimpleChatIO.loop_body (vars, w) (x :: s))
      with (foldl SimpleChatIO.loop_body (SimpleChatIO.loop_body (vars, w) x) s).
    rewrite Hbody.
    destruct (IH (SimpleChatIO.Locals
                    (SimpleChatIO.pre vars `max` (length (tokens x) - 1))
                    (Some (tokens x)))
                 (writes ((λ g, Py.join " " g +:+ " ") <$> c1) w))
      as (c2 & ot & -> & Hne2 & Hlen2 & Hpos2).
    pose proof (f_equal length Hcat1) as Hlen1. rewrite length_slice_tokens in Hlen1.
    simpl in *. set (p := SimpleChatIO.pre vars) in *.
    exists (c1 ++ c2), ot. split_and!.
    + by rewrite writes_writes, fmap_app, Nat.max_assoc.
    + by apply Forall_app.
    + rewrite concat_app, length_app. simpl. lia.
    + intros k Hk. rewrite concat_app, length_app in Hk. rewrite concat_app.
      destruct (decide (k < length (concat c1))) as [Hin|Hout].
      * exists [], x, s. split_and!; [done|simpl; lia|lia|].
        rewrite lookup_app_l by done. rewrite Hcat1. unfold Py.slice.
        rewrite lookup_drop. apply lookup_take_lt. lia.
      * destruct (Hpos2 (k - length (concat c1))) as (s1 & y & s2 & -> & Hlo & Hhi & Hy);
          [lia|].
        assert (p `max` (length (tokens x) - 1) + (k - length (concat c1)) = p + k)
          as Hpk by lia.
        rewrite Hpk in Hlo, Hhi, Hy.
        exists (x :: s1), y, s2. split_and!; [done|simpl; lia|done|].
        rewrite lookup_app_r by lia. done.
Qed.

(** X2.  The counter [pre] of the loop, on any stream: after the loop it is
    the largest [len(output_text) - 1] over the snapshots consumed, and it is
    exactly the number of tokens the loop has written, in chunks that are
    never empty.  The tokens written are tokens of the snapshots: the one
    written at position [i] is the token at position [i] of the first
    snapshot that has more than [i] complete tokens. *)
Theorem loop_pre_counts_written s w :
  ∃ chunks : list (list string),
    (SimpleChatIO.loop s w).2 = writes ((λ g, Py.join " " g +:+ " ") <$> chunks) w
    ∧ Forall (λ g, g ≠ []) chunks
    ∧ SimpleChatIO.pre (SimpleChatIO.loop s w).1
      = max_list_with (λ o, length (tokens o) - 1) s
    ∧ length (concat chunks) = SimpleChatIO.pre (SimpleChatIO.loop s w).1
    ∧ ∀ i, i < SimpleChatIO.pre (SimpleChatIO.loop s w).1 →
        ∃ s1 x s2,
          s = s1 ++ x :: s2
          ∧ max_list_with (λ o, length (tokens o) - 1) s1 ≤ i
          ∧ i < length (tokens x) - 1
          ∧ concat chunks !! i = tokens x !! i.
Proof.
  destruct (simple_foldl_written s (SimpleChatIO.Locals 0 None) w)
    as (chunks & ot & Hloop & Hne & Hcat & Hpos).
  exists chunks. unfold SimpleChatIO.loop. rewrite Hloop. simpl in *.
  split_and!; [done|done|done|lia|].
  intros i Hi. destruct (Hpos i) as (s1 & x & s2 & Hs & Hlo & Hhi & Hx); [lia|].
  by exists s1, x, s2.
Qed.

(** On the three "Hello" snapshots the loop has written the two tokens
    "Hello" and "there", and [pre] is 2. *)
Example loop_pre_counts_written_ex :
  SimpleChatIO.loop hello_stream world0
  = (SimpleChatIO.Locals 2 (Some ["Hello"; "there"; "friend"]),
     writes ((λ g, Py.join " " g +:+ " ") <$> [["Hello"]; ["there"]]) world0).
Proof. reflexivity. Qed.

Lemma simple_loop_body_twice st x :
  SimpleChatIO.loop_body (SimpleChatIO.loop_body st x) x = SimpleChatIO.loop_body st x.
Proof.
  destruct st as [vars w]. unfold SimpleChatIO.loop_body.
  set (now := length (Py.split Py.SP (Py.strip (text x))) - 1).
  destruct (SimpleChatIO.pre vars <? now) eqn:Hlt; simpl.
  - by rewrite Nat.ltb_irrefl.
  - by rewrite Hlt.
Qed.

(** X3.  A snapshot that comes twice in a row counts once: the second copy
    writes nothing and changes no variable, so the call returns the same
    string and leaves the same world as without it. *)
Theorem stream_output_repeated_snapshot self s1 x s2 w :
  SimpleChatIO.stream_output self (s1 ++ x :: x :: s2) w
  = SimpleChatIO.stream_output self (s1 ++ x :: s2) w.
Proof.
  unfold SimpleChatIO.stream_output, SimpleChatIO.loop.
  rewrite !foldl_app. simpl foldl at 1 3.
  change (foldl SimpleChatIO.loop_body ?st (x :: x :: s2))
    with (foldl SimpleChatIO.loop_body
            (SimpleChatIO.loop_body (SimpleChatIO.loop_body st x) x) s2).
  change (foldl SimpleChatIO.loop_body ?st (x :: s2))
    with (foldl SimpleChatIO.loop_body (SimpleChatIO.loop_body st x) s2).
  by rewrite simple_loop_body_twice.
Qed.

(** X4.  When the last snapshot has fewer tokens than an earlier one, the
    slice [output_text[pre:]] is out of range and so empty: the closing
    [print] writes the line end alone, and the function still returns the
    stripped text of the last snapshot, which the console does not show. *)
Theorem stream_output_after_shrink self s o y w :
  last s = Some o → y ∈ s → length (tokens o) < length (tokens y) →
  SimpleChatIO.stream_output self s w
  = (Ok (Py.strip (text o)), print_ EmptyString nl (SimpleChatIO.loop s w).2).
Proof.
  intros Hlast Hy Hlen.
  pose proof (simple_loop_text s o w Hlast) as Htext.
  destruct (simple_foldl_count s (SimpleChatIO.Locals 0 None) w)
    as (chunks & ot & Hloop & _ & _ & _).
  pose proof (max_list_with_elem_of_le (λ o, length (tokens o) - 1) y s Hy) as Hmax.
  unfold SimpleChatIO.stream_output. unfold SimpleChatIO.loop in *.
  rewrite Hloop in *. simpl in *. subst ot. simpl.
  rewrite join_tokens, drop_ge by lia. done.
Qed.

Lemma stream_output_after_shrink_witness :
  SimpleChatIO.stream_output {| SimpleChatIO.multiline := false |} shrinking_stream world0
  = (Ok "a b", World ["a b c "; nl] [] [] [] [] ∅).
Proof.
  apply (stream_output_after_shrink {| SimpleChatIO.multiline := false |}
           shrinking_stream (Outputs "a b") (Outputs "a b c d") world0).
  - reflexivity.
  - constructor.
  - vm_compute. lia.
Defined.

(** X5.  The two copies of the word-by-word printer agree: on every stream
    and from every world [FileInputChatIO.stream_output] ends its loop with
    the same counter and token list as [SimpleChatIO.stream_output], returns
    the same result and leaves the same world. *)
Theorem plain_printers_agree fself sself s w :
  FileInputChatIO.pre (FileInputChatIO.loop s w).1
  = SimpleChatIO.pre (SimpleChatIO.loop s w).1
  ∧ FileInputChatIO.output_text (FileInputChatIO.loop s w).1
    = SimpleChatIO.output_text (SimpleChatIO.loop s w).1
  ∧ FileInputChatIO.stream_output fself s w = SimpleChatIO.stream_output sself s w.
Proof.
  rewrite file_loop_simple. split_and!; [done|done|].
  apply file_stream_output_simple.
Qed.

Lemma all_space_lstrip s : all_space s = true → Py.lstrip s = EmptyString.
Proof.
  induction s as [|c s IH]; [done|]. simpl.
  intros [Hc Hs]%andb_true_iff. rewrite Hc. by apply IH.
Qed.

Lemma blank_tokens o : all_space (text o) = true → tokens o = [EmptyString].
Proof.
  intros Ho. unfold tokens, Py.strip. by rewrite all_space_lstrip.
Qed.

Lemma simple_foldl_blank s ot w :
  Forall (λ o, all_space (text o) = true) s →
  foldl SimpleChatIO.loop_body (SimpleChatIO.Locals 0 ot, w) s
  = (SimpleChatIO.Locals 0 (if s is [] then ot else Some [EmptyString]), w).
Proof.
  intros Hs. revert ot. induction Hs as [|x s Hx Hs IH]; intros ot; [done|].
  change (foldl SimpleChatIO.loop_body (SimpleChatIO.Locals 0 ot, w) (x :: s))
    with (foldl SimpleChatIO.loop_body
            (SimpleChatIO.loop_body (SimpleChatIO.Locals 0 ot, w) x) s).
  unfold SimpleChatIO.loop_body at 2. fold (tokens x).
  rewrite (blank_tokens x Hx). simpl. rewrite IH. by destruct s.
Qed.

(** X6.  Blank snapshots, whose text is empty or white space only, give the
    single empty token: the loop writes nothing for them, and a stream made
    of blank snapshots only ends with a bare line end on the console and the
    empty string as result. *)
Theorem stream_output_blank self s w :
  s ≠ [] → Forall (λ o, all_space (text o) = true) s →
  SimpleChatIO.stream_output self s w = (Ok EmptyString, print_ EmptyString nl w).
Proof.
  intros Hne Hs. unfold SimpleChatIO.stream_output, SimpleChatIO.loop.
  rewrite simple_foldl_blank by done. by destruct s.
Qed.

Lemma stream_output_blank_witness :
  SimpleChatIO.stream_output {| SimpleChatIO.multiline := false |} blank_stream world0
  = (Ok EmptyString, World [nl] [] [] [] [] ∅).
Proof.
  apply (stream_output_blank {| SimpleChatIO.multiline := false |} blank_stream world0).
  - discriminate.
  - repeat constructor.
Defined.

(** ** The live renderer *)



Lemma one_line_app a b : one_line (a +:+ b) = one_line a && one_line b.
Proof.
  induction a as [|c a IH]; [done|]. rewrite sapp_cons. simpl.
  by rewrite IH, andb_assoc.
Qed.

Lemma splitlines_one_line_upto n s :
  String.length s ≤ n → Forall (λ l, one_line l = true) (Py.splitlines s).
Proof.
  revert s. induction n as [|n IH]; intros [|c s] Hlen; simpl in Hlen;
    [done|lia|done|].
  simpl. destruct (Py.islinebreak c) eqn:Hc.
  - constructor; [done|]. destruct s as [|d s]; [done|].
    simpl in Hlen. destruct (_ && _); apply IH; simpl; lia.
  - assert (Forall (λ l, one_line l = true) (Py.splitlines s)) as Hs
      by (apply IH; lia).
    destruct (Py.splitlines s) as [|l ls].
    + repeat constructor. simpl. by rewrite Hc.
    + inversion Hs as [|? ? Hl Hls]; subst. constructor; [|done].
      simpl. by rewrite Hc, Hl.
Qed.

(** No line of [splitlines] holds a line boundary. *)
Lemma splitlines_one_line s : Forall (λ l, one_line l = true) (Py.splitlines s).
Proof. by apply (splitlines_one_line_upto (String.length s)). Qed.

(** X8.  The line transformation keeps the lines of the raw text, in number
    and in order: read back line by line, the markdown source has a fence
    line unchanged where the text has one, and any other line with two spaces
    added at its end; every line boundary has become a single LF. *)
Theorem markdown_source_keeps_lines text :
  Py.splitlines (RichChatIO.markdown_source text)
  = (λ l, if Py.startswith l "```" then l else l +:+ "  ") <$> Py.splitlines text.
Proof.
  rewrite markdown_source_lines.
  induction (splitlines_one_line text) as [|l ls Hl _ IH]; [done|].
  rewrite !fmap_cons, shown_cons, <- IH.
  destruct (Py.startswith l "```").
  - rewrite sapp_assoc. by apply splitlines_line.
  - rewrite !sapp_assoc, <- (sapp_assoc l "  ").
    apply splitlines_line. by rewrite one_line_app, Hl.
Qed.

Lemma ends_open_cons c d s : ends_open (String c (String d s)) = ends_open (String d s).
Proof. reflexivity. Qed.

Lemma splitlines_trailing_lf_upto n s :
  String.length s ≤ n → ends_open s = true →
  Py.splitlines (s +:+ nl) = Py.splitlines s.
Proof.
  revert s. induction n as [|n IH]; intros [|c s] Hlen Hopen; simpl in Hlen;
    [done|lia|done|].
  destruct s as [|d s].
  - simpl in Hopen. apply negb_true_iff in Hopen.
    rewrite sapp_cons, sapp_nil_l. unfold nl. simpl. by rewrite Hopen.
  - rewrite ends_open_cons in Hopen. rewrite !sapp_cons.
    assert (Py.splitlines (String d s +:+ nl) = Py.splitlines (String d s)) as Hs.
    { apply IH; [simpl in *; lia|done]. }
    rewrite sapp_cons in Hs.
    change (Py.splitlines (String c (String d (s +:+ nl))))
      with (if Py.islinebreak c
            then EmptyString ::
                   (if Ascii.eqb c Py.CR && Ascii.eqb d Py.LF
                    then Py.splitlines (s +:+ nl)
                    else Py.splitlines (String d (s +:+ nl)))
            else match Py.splitlines (String d (s +:+ nl)) with
                 | [] => [String c EmptyString]
                 | l :: ls => String c l :: ls
                 end).
    change (Py.splitlines (String c (String d s)))
      with (if Py.islinebreak c
            then EmptyString ::
                   (if Ascii.eqb c Py.CR && Ascii.eqb d Py.LF
                    then Py.splitlines s
                    else Py.splitlines (String d s))
            else match Py.splitlines (String d s) with
                 | [] => [String c EmptyString]
                 | l :: ls => String c l :: ls
                 end).
    rewrite Hs. destruct (Py.islinebreak c); [|done].
    destruct (Ascii.eqb c Py.CR && Ascii.eqb d Py.LF) eqn:Hcrlf; [|done].
    f_equal. apply IH; [simpl in *; lia|].
    apply andb_true_iff in Hcrlf as [_ ->%Ascii.eqb_eq].
    by destruct s.
Qed.

(** X9.  A line feed at the end of the raw text does not change what is
    drawn: when the text is not empty and does not already end with a line
    boundary, the text and the text followed by LF have the same markdown
    source. *)
Theorem markdown_source_trailing_lf text :
  ends_open text = true →
  RichChatIO.markdown_source (text +:+ nl) = RichChatIO.markdown_source text.
Proof.
  intros Hopen. unfold RichChatIO.markdown_source.
  by rewrite (splitlines_trailing_lf_upto (String.length text)).
Qed.

Lemma markdown_source_trailing_lf_witness :
  RichChatIO.markdown_source ("a" +:+ nl +:+ "b" +:+ nl)
  = RichChatIO.markdown_source ("a" +:+ nl +:+ "b").
Proof. exact (markdown_source_trailing_lf ("a" +:+ nl +:+ "b") eq_refl). Defined.

(** ** main *)




(** X11.  A style other than "simple", "rich" and "programmatic" makes
    [main] raise [ValueError] without opening a connection or running the
    chat loop, so the world is untouched; but the style is looked at after
    the [--gpus] block, so the environment is already the one that block
    left. *)
Theorem main_unknown_style abspath connect rich_init chat_loop a environ environ' w :
  Main.style a ≠ "simple" → Main.style a ≠ "rich" → Main.style a ≠ "programmatic" →
  Main.visible_devices a environ = Some environ' →
  Main.main abspath connect rich_init chat_loop a environ w
  = (Main.ValueError, environ', w).
Proof.
  intros H1%String.eqb_neq H2%String.eqb_neq H3%String.eqb_neq Henv.
  unfold Main.main, Main.select_chatio. by rewrite Henv, H1, H2, H3.
Qed.

Lemma main_unknown_style_witness :
  Main.main inr (λ _ w, (None, w)) (λ w, (None, w)) (λ _ _ w, (None, w))
    odd_style ∅ world0
  = (Main.ValueError,
     <["XPU_VISIBLE_DEVICES" := "0,1"]> (<["CUDA_VISIBLE_DEVICES" := "0,1"]> ∅),
     world0).
Proof.
  apply (main_unknown_style inr (λ _ w, (None, w)) (λ w, (None, w))
           (λ _ _ w, (None, w)) odd_style);
    [discriminate|discriminate|discriminate|reflexivity].
Defined.


